(** * markov-generator: a shallow embedding of [MarkovChain] and its pieces

    Sources: src/markov-generator/src/markov_chain/{action,node,edge,markov_chain}.rs.

    Node, edge and action ids are Rust [u32]; they are only ever compared for
    equality, so they are modelled as [N].  Edge weights are Rust [f32]; the
    transition code only adds, subtracts and compares them with [<], and
    [rng.gen_range] tests a difference for finiteness, so the embedding is
    generic over a class [FloatOps] that provides exactly those operations.  Every theorem stated over that class therefore holds for any
    implementation of it, IEEE [f32] included.  Concrete examples instantiate
    it with the rationals [Q]. *)

From Stdlib Require Import List NArith ZArith QArith String Bool Lia.
Import ListNotations.

(** ** Floating-point interface used by [next] *)

Class FloatOps (F : Type) := {
  f_zero : F;                  (** the literal [0.0] *)
  f_add : F -> F -> F;         (** [+=] *)
  f_sub : F -> F -> F;         (** [-=] *)
  f_ltb : F -> F -> bool;      (** [<] (false on NaN, as for IEEE) *)
  f_is_finite : F -> bool      (** [is_finite] (false on infinities and NaN) *)
}.

Definition Qltb (x y : Q) : bool := negb (Qle_bool y x).

#[export] Instance Q_FloatOps : FloatOps Q := {
  f_zero := 0%Q;
  f_add := Qplus;
  f_sub := Qminus;
  f_ltb := Qltb;
  f_is_finite := fun _ => true
}.

(** ** [serde_json::Value] (the payload of an [Action])

    [serde_json::Number] is a [u64], an [i64] or a finite [f64]; a finite
    [f64] is kept as the rational number it denotes. *)

Inductive JsonNumber : Type :=
  | PosInt (n : N)
  | NegInt (z : Z)
  | Float (q : Q).

#[warnings="-register-all"]
Inductive Value : Type :=
  | Null
  | Bool (b : bool)
  | Number (n : JsonNumber)
  | VString (s : string)
  | Array (xs : list Value)
  | Object (kvs : list (string * Value)).

(** ** action.rs, node.rs, edge.rs *)

Record Action := mkAction { action_id : N; value : Value }.

(** [Action::new]: a missing value defaults to [Value::Null]. *)
Definition Action_new (id : N) (v : option Value) : Action :=
  let _value := match v with Some v => v | None => Null end in
  mkAction id _value.

Record Node := mkNode { node_id : N; actions : list Action }.

(** [Node::new]: missing actions default to the empty vector. *)
Definition Node_new (id : N) (acts : option (list Action)) : Node :=
  let _actions := match acts with Some a => a | None => [] end in
  mkNode id _actions.

Section EdgeDef.
Context {F : Type}.

Record Edge := mkEdge { from : N; to : N; weight : F }.

End EdgeDef.
Arguments Edge F : clear implicits.

Definition Edge_new {F} (fr t : N) (w : F) : Edge F := mkEdge fr t w.

(** ** markov_chain.rs *)

Inductive MarkovChainError :=
  | StuckError
  | NodeDoesNotExistError
  | EdgeDoesNotExistError
  | ActionDoesNotExistError
  | NodeHasNoEdgesError
  | TransitionFailedError.

(** Rust's [Result<T, E>]. *)
Inductive result (T E : Type) : Type :=
  | Ok (t : T)
  | Err (e : E).
Arguments Ok {T E} t.
Arguments Err {T E} e.

(** A computation that either returns or panics (aborts the process). *)
Inductive Outcome (A : Type) : Type :=
  | Panic
  | Done (a : A).
Arguments Panic {A}.
Arguments Done {A} a.

Record MarkovChain (F : Type) := mkChain {
  nodes : list Node;
  edges : list (Edge F);
  current_node : option N
}.
Arguments mkChain {F} nodes edges current_node.
Arguments nodes {F} m.
Arguments edges {F} m.
Arguments current_node {F} m.

Section Chain.
Context {F : Type} `{FloatOps F}.

Definition MarkovChain_new (ns : option (list Node)) (es : option (list (Edge F)))
  : MarkovChain F :=
  mkChain (match ns with Some n => n | None => [] end)
          (match es with Some e => e | None => [] end)
          None.

(** [self.nodes.push(node)] *)
Definition add_node (self : MarkovChain F) (node : Node) : MarkovChain F :=
  mkChain (nodes self ++ [node]) (edges self) (current_node self).

(** [self.nodes.extend_from_slice(nodes)] *)
Definition add_nodes (self : MarkovChain F) (ns : list Node) : MarkovChain F :=
  mkChain (nodes self ++ ns) (edges self) (current_node self).

(** [self.edges.push(edge)] *)
Definition add_edge (self : MarkovChain F) (edge : Edge F) : MarkovChain F :=
  mkChain (nodes self) (edges self ++ [edge]) (current_node self).

(** [self.nodes.retain(|node| node.id != node_id)] *)
Definition remove_node (self : MarkovChain F) (id : N) : MarkovChain F :=
  mkChain (filter (fun node => negb (N.eqb (node_id node) id)) (nodes self))
          (edges self) (current_node self).

(** [self.edges.retain(|edge| !(edge.from == from && edge.to == to))] *)
Definition remove_edge (self : MarkovChain F) (fr t : N) : MarkovChain F :=
  mkChain (nodes self)
          (filter (fun e => negb (N.eqb (from e) fr && N.eqb (to e) t)) (edges self))
          (current_node self).

(** [self.nodes.iter().find(|node| node.id == node_id)] *)
Definition get_node (self : MarkovChain F) (id : N) : option Node :=
  find (fun node => N.eqb (node_id node) id) (nodes self).

Definition get_edge (self : MarkovChain F) (fr t : N) : option (Edge F) :=
  find (fun e => N.eqb (from e) fr && N.eqb (to e) t) (edges self).

(** [self.nodes.iter().any(|node| node.id == node_id)] *)
Definition node_exists (self : MarkovChain F) (id : N) : bool :=
  existsb (fun node => N.eqb (node_id node) id) (nodes self).

Definition edge_exists (self : MarkovChain F) (fr t : N) : bool :=
  existsb (fun e => N.eqb (from e) fr && N.eqb (to e) t) (edges self).

Definition get_node_edges (self : MarkovChain F) (id : N)
  : result (list (Edge F)) MarkovChainError :=
  if negb (node_exists self id) then Err NodeDoesNotExistError
  else Ok (filter (fun e => N.eqb (from e) id) (edges self)).

Definition set_current_node (self : MarkovChain F) (id : N)
  : result unit MarkovChainError * MarkovChain F :=
  match find (fun node => N.eqb (node_id node) id) (nodes self) with
  | Some _ => (Ok tt, mkChain (nodes self) (edges self) (Some id))
  | None => (Err NodeDoesNotExistError, self)
  end.

Definition get_current_node (self : MarkovChain F) : option N := current_node self.

(** [rng.gen_range(low..high)] from rand 0.8: [gen_range] asserts that the
    range is not empty ([low < high]), then [UniformFloat::sample_single]
    asserts that [high - low] is finite ("range overflow"); either failure
    panics.  [draw] is the value the random generator returns, in
    [[low, high)]: randomness is made an input. *)
Definition gen_range (low high draw : F) : Outcome F :=
  if f_ltb low high then
    if f_is_finite (f_sub high low) then Done draw else Panic
  else Panic.

(** [for edge in edges.iter() { total_weight += edge.weight; }] *)
Definition total_weight (es : list (Edge F)) : F :=
  fold_left (fun acc e => f_add acc (weight e)) es f_zero.

(** The selection loop:
    [for edge in edges.iter() { if random_weight < edge.weight { return Some(edge.to) }
     random_weight -= edge.weight; }]. *)
Fixpoint select_edge (random_weight : F) (es : list (Edge F)) : option N :=
  match es with
  | [] => None
  | e :: rest =>
      if f_ltb random_weight (weight e) then Some (to e)
      else select_edge (f_sub random_weight (weight e)) rest
  end.

(** [MarkovChain::next]; [draw] is the value [rng.gen_range] produces. *)
Definition next (self : MarkovChain F) (draw : F)
  : Outcome (result unit MarkovChainError * MarkovChain F) :=
  match current_node self with
  | None => Done (Err NodeDoesNotExistError, self)
  | Some current_node_id =>
      match get_node_edges self current_node_id with
      | Err _ => Done (Err NodeHasNoEdgesError, self)
      | Ok es =>
          match es with
          | [] => Done (Err NodeHasNoEdgesError, self)
          | _ :: _ =>
              match gen_range f_zero (total_weight es) draw with
              | Panic => Panic
              | Done random_weight =>
                  match select_edge random_weight es with
                  | Some t => Done (Ok tt, mkChain (nodes self) (edges self) (Some t))
                  | None => Done (Err TransitionFailedError, self)
                  end
              end
          end
      end
  end.

End Chain.

(** ** The remaining lookups and updates of markov_chain.rs *)

Section MoreOps.
Context {F : Type}.

(** [if let Some(node) = self.nodes.iter_mut().find(|node| node.id == node_id)
     { node.actions.extend_from_slice(actions); }]: only the first node with
    that id is extended. *)
Fixpoint extend_first_node (id : N) (acts : list Action) (ns : list Node) : list Node :=
  match ns with
  | [] => []
  | n :: rest =>
      if N.eqb (node_id n) id then mkNode (node_id n) (actions n ++ acts) :: rest
      else n :: extend_first_node id acts rest
  end.

Definition add_node_actions (self : MarkovChain F) (id : N) (acts : list Action)
  : MarkovChain F :=
  mkChain (extend_first_node id acts (nodes self)) (edges self) (current_node self).

(** [self.nodes.iter().find(..).map(|node| &node.actions)] *)
Definition get_node_actions (self : MarkovChain F) (id : N) : option (list Action) :=
  option_map actions (get_node self id).

(** [self.nodes.iter().find(..).and_then(|node| node.actions.iter().find(|a| a.id == action_id))] *)
Definition get_node_action (self : MarkovChain F) (id aid : N) : option Action :=
  match get_node self id with
  | Some n => find (fun a => N.eqb (action_id a) aid) (actions n)
  | None => None
  end.

(** [self.edges.iter().find(|edge| edge.from == node_id).map(|edge| &edge.from)] *)
Definition get_edge_from (self : MarkovChain F) (id : N) : option N :=
  option_map from (find (fun e => N.eqb (from e) id) (edges self)).

(** [self.edges.iter().find(|edge| edge.to == node_id).map(|edge| &edge.to)] *)
Definition get_edge_to (self : MarkovChain F) (id : N) : option N :=
  option_map to (find (fun e => N.eqb (to e) id) (edges self)).

End MoreOps.

(** The sample graph of main.rs, weights read as rationals. *)
Definition sample_chain : MarkovChain Q :=
  let mc := add_nodes (MarkovChain_new None None)
              [Node_new 1 None; Node_new 2 None; Node_new 3 None] in
  let a1 := Action_new 100 (Some (Number (Float (1005 # 10)))) in
  let a2 := Action_new 200 (Some (Number (Float (2005 # 10)))) in
  let a3 := Action_new 300 (Some (Number (Float (3005 # 10)))) in
  let mc := add_node_actions mc 1 [a1] in
  let mc := add_node_actions mc 2 [a2; a3] in
  let mc := add_edge mc (Edge_new 1 2 (2 # 10)) in
  let mc := add_edge mc (Edge_new 2 3 (4 # 10)) in
  let mc := add_edge mc (Edge_new 3 1 (8 # 10)) in
  add_edge mc (Edge_new 3 2 (4 # 10)).

Example sample_edges_3 :
  get_node_edges sample_chain 3 = Ok [Edge_new 3 1 (8 # 10); Edge_new 3 2 (4 # 10)].
Proof. reflexivity. Qed.

Example sample_next_3 :
  next (snd (set_current_node sample_chain 3)) (9 # 10) =
  Done (Ok tt, mkChain (nodes sample_chain) (edges sample_chain) (Some 2%N)).
Proof. reflexivity. Qed.

(** ** Properties of the chain operations *)

Section ChainFacts.
Context {F : Type} `{FloatOps F}.

Lemma find_none_existsb {A} (p : A -> bool) (l : list A) :
  find p l = None <-> existsb p l = false.
Proof.
  induction l as [|x l IH]; simpl; [tauto|].
  destruct (p x); simpl; [split; discriminate|exact IH].
Qed.

Lemma existsb_node_exists_iff (c : MarkovChain F) (id : N) :
  node_exists c id = true <-> exists n, In n (nodes c) /\ node_id n = id.
Proof.
  unfold node_exists. rewrite existsb_exists.
  split; intros [n [Hin Heq]]; exists n; split; auto; apply N.eqb_eq; auto.
Qed.

Lemma filter_all_true {A} (p : A -> bool) (l : list A) :
  (forall x, In x l -> p x = true) -> filter p l = l.
Proof.
  induction l as [|x l IH]; simpl; intros Hall; [reflexivity|].
  rewrite (Hall x (or_introl eq_refl)), IH; auto.
Qed.

Lemma get_node_edges_ok (c : MarkovChain F) (id : N) (es : list (Edge F)) :
  get_node_edges c id = Ok es ->
  node_exists c id = true /\ es = filter (fun e => N.eqb (from e) id) (edges c).
Proof.
  unfold get_node_edges. destruct (node_exists c id); simpl; intro Hr;
    inversion Hr; auto.
Qed.

Lemma select_edge_some (r : F) (es : list (Edge F)) (t : N) :
  select_edge r es = Some t -> exists e, In e es /\ to e = t.
Proof.
  revert r. induction es as [|e rest IH]; simpl; intros r Hs; [discriminate|].
  destruct (f_ltb r (weight e)).
  - inversion Hs; subst. exists e; auto.
  - destruct (IH _ Hs) as [e' [Hin Heq]]. exists e'; auto.
Qed.

(** Claim C1: when the current position is an id that no node has any more, or
    the current node has no outgoing edge, [next] fails with
    [NodeHasNoEdgesError] (in the first case [get_node_edges] itself fails
    with [NodeDoesNotExistError], which [next] converts) and the chain is
    returned unchanged. *)
Theorem next_no_edges_error (c : MarkovChain F) (id : N) (draw : F) :
  current_node c = Some id ->
  (node_exists c id = false \/ filter (fun e => N.eqb (from e) id) (edges c) = []) ->
  next c draw = Done (Err NodeHasNoEdgesError, c) /\
  (node_exists c id = false -> get_node_edges c id = Err NodeDoesNotExistError).
Proof.
  intros Hcur Hcase. unfold next, get_node_edges. rewrite Hcur.
  split.
  - destruct Hcase as [Hne | Hnil].
    + rewrite Hne. reflexivity.
    + destruct (node_exists c id); simpl; [rewrite Hnil|]; reflexivity.
  - intro Hne. rewrite Hne. reflexivity.
Qed.

(** Claim C5: [set_current_node id] succeeds and sets the current position to
    [id] exactly when some node has id [id]; otherwise it fails with
    [NodeDoesNotExistError] and returns the whole chain unchanged (so
    [get_current_node] is unchanged too). *)
Theorem set_current_node_spec (c : MarkovChain F) (id : N) :
  set_current_node c id =
    if node_exists c id then (Ok tt, mkChain (nodes c) (edges c) (Some id))
    else (Err NodeDoesNotExistError, c).
Proof.
  unfold set_current_node.
  destruct (find (fun node => N.eqb (node_id node) id) (nodes c)) eqn:Hf.
  - assert (Hex : node_exists c id = true).
    { destruct (node_exists c id) eqn:Hne; auto.
      apply find_none_existsb in Hne. congruence. }
    rewrite Hex. reflexivity.
  - apply find_none_existsb in Hf. unfold node_exists. rewrite Hf. reflexivity.
Qed.

(** Claim C6: with no current position, [next] fails with
    [NodeDoesNotExistError] and returns the chain unchanged. *)
Theorem next_unset_current (ns : list Node) (es : list (Edge F)) (draw : F) :
  next (mkChain ns es None) draw =
  Done (Err NodeDoesNotExistError, mkChain ns es None).
Proof. reflexivity. Qed.

(** Claim C7: [get_node_edges id] fails with [NodeDoesNotExistError] when no
    node has id [id]; otherwise it returns the edges whose [from] is [id], in
    the order they are stored (the edge list filtered on [from = id]), and an
    edge is in the result exactly when it is a stored edge with [from = id]. *)
Theorem get_node_edges_spec (c : MarkovChain F) (id : N) :
  ((~ exists n, In n (nodes c) /\ node_id n = id) ->
     get_node_edges c id = Err NodeDoesNotExistError) /\
  ((exists n, In n (nodes c) /\ node_id n = id) ->
     get_node_edges c id = Ok (filter (fun e => N.eqb (from e) id) (edges c))) /\
  (forall e, In e (filter (fun e => N.eqb (from e) id) (edges c)) <->
             In e (edges c) /\ from e = id).
Proof.
  split; [|split].
  - intro Hno. unfold get_node_edges.
    destruct (node_exists c id) eqn:Hne; [|reflexivity].
    exfalso. apply Hno. apply existsb_node_exists_iff. exact Hne.
  - intro Hyes. apply existsb_node_exists_iff in Hyes.
    unfold get_node_edges. rewrite Hyes. reflexivity.
  - intro e. rewrite filter_In, N.eqb_eq. tauto.
Qed.

(** Claim C8: [remove_node id] drops every node with id [id] (so [get_node id]
    then finds nothing) and keeps every other node; it changes nothing when no
    node has that id; the edges and the current position are left as they
    were, also when [id] is the current position. *)
Theorem remove_node_spec (c : MarkovChain F) (id : N) :
  get_node (remove_node c id) id = None /\
  (forall n, In n (nodes (remove_node c id)) <-> In n (nodes c) /\ node_id n <> id) /\
  (node_exists c id = false -> remove_node c id = c) /\
  edges (remove_node c id) = edges c /\
  current_node (remove_node c id) = current_node c.
Proof.
  split; [|split; [|split; [|split]]]; try reflexivity.
  - unfold get_node, remove_node; simpl.
    apply find_none_existsb. apply Bool.not_true_iff_false. intro Hex.
    apply existsb_exists in Hex as [n [Hin Heq]].
    apply filter_In in Hin as [_ Hneq].
    rewrite Heq in Hneq. discriminate.
  - intro n. unfold remove_node; simpl. rewrite filter_In.
    rewrite Bool.negb_true_iff, N.eqb_neq. tauto.
  - intro Hne. destruct c as [ns es cur]. unfold remove_node; simpl.
    rewrite filter_all_true; [reflexivity|].
    intros n Hin. apply Bool.negb_true_iff. apply N.eqb_neq. intro Heq.
    apply Bool.not_true_iff_false in Hne. apply Hne.
    apply existsb_node_exists_iff. exists n; auto.
Qed.

End ChainFacts.

(** Witness for C1 on a chain whose current node was removed. *)
Lemma next_no_edges_error_witness :
  next (mkChain [] [Edge_new 1 2 (1 # 1)] (Some 1%N)) (0 # 1) =
    Done (Err NodeHasNoEdgesError, mkChain [] [Edge_new 1 2 (1 # 1)] (Some 1%N)) /\
  (node_exists (mkChain [] [Edge_new 1 2 (1 # 1)] (Some 1%N)) 1 = false ->
   get_node_edges (mkChain [] [Edge_new 1 2 (1 # 1)] (Some 1%N)) 1 =
     Err NodeDoesNotExistError).
Proof.
  apply (next_no_edges_error (mkChain [] [Edge_new 1 2 (1 # 1)] (Some 1%N)) 1 (0 # 1)).
  - reflexivity.
  - left. reflexivity.
Defined.

(** ** The transition of [next] *)

Section NextFacts.
Context {F : Type} `{FloatOps F}.

(** The value of [random_weight] when the loop reaches the [i]-th edge: [r]
    minus the weights of the edges before it, subtracted one at a time. *)
Fixpoint remaining (r : F) (es : list (Edge F)) (i : nat) : F :=
  match i, es with
  | O, _ => r
  | S i', e :: rest => remaining (f_sub r (weight e)) rest i'
  | S _, [] => r
  end.

Lemma select_edge_first (es : list (Edge F)) (r : F) (i : nat) (e : Edge F) :
  nth_error es i = Some e ->
  f_ltb (remaining r es i) (weight e) = true ->
  (forall j e', (j < i)%nat -> nth_error es j = Some e' ->
                f_ltb (remaining r es j) (weight e') = false) ->
  select_edge r es = Some (to e).
Proof.
  revert r i. induction es as [|e0 rest IH]; intros r i Hnth Hlt Hbefore.
  - destruct i; discriminate.
  - destruct i as [|i]; simpl in *.
    + inversion Hnth; subst. rewrite Hlt. reflexivity.
    + rewrite (Hbefore 0%nat e0 ltac:(lia) eq_refl). simpl.
      apply (IH _ i); auto.
      intros j e' Hj Hn. apply (Hbefore (S j) e'); [lia|exact Hn].
Qed.

Lemma select_edge_none (es : list (Edge F)) (r : F) :
  (forall i e, nth_error es i = Some e -> f_ltb (remaining r es i) (weight e) = false) ->
  select_edge r es = None.
Proof.
  revert r. induction es as [|e0 rest IH]; intros r Hall; simpl; [reflexivity|].
  pose proof (Hall 0%nat e0 eq_refl) as H0; simpl in H0. rewrite H0.
  apply IH. intros i e Hn. apply (Hall (S i) e Hn).
Qed.

Lemma total_weight_zeros (es : list (Edge F)) :
  f_add f_zero f_zero = f_zero ->
  Forall (fun e => weight e = f_zero) es ->
  total_weight es = f_zero.
Proof.
  intros Hz. unfold total_weight. induction 1 as [|e rest Hw _ IH]; simpl;
    [reflexivity|].
  rewrite Hw, Hz. exact IH.
Qed.

(** Claim C2 (a [code_bug]): [next] does panic on a documented input.  When the
    current node exists and has outgoing edges whose weights are all [0.0]
    (finite and non-negative), [total_weight] is [0.0] and
    [rng.gen_range(0.0..0.0)] panics on the empty range.  The two hypotheses
    on the arithmetic hold for IEEE [f32]: [0.0 + 0.0 = 0.0] and
    [!(0.0 < 0.0)]. *)
Theorem next_panics_zero_weights (c : MarkovChain F) (id : N) (draw : F) :
  f_add f_zero f_zero = f_zero ->
  f_ltb f_zero f_zero = false ->
  current_node c = Some id ->
  node_exists c id = true ->
  filter (fun e => N.eqb (from e) id) (edges c) <> [] ->
  Forall (fun e => weight e = f_zero) (filter (fun e => N.eqb (from e) id) (edges c)) ->
  next c draw = Panic.
Proof.
  intros Hz Hlt Hcur Hex Hne Hall.
  unfold next, get_node_edges. rewrite Hcur, Hex. simpl.
  destruct (filter (fun e => N.eqb (from e) id) (edges c)) as [|e0 rest] eqn:Hf;
    [congruence|].
  unfold gen_range. rewrite (total_weight_zeros _ Hz Hall), Hlt. reflexivity.
Qed.

(** Claim C4: when the current node has a non-empty list [es] of outgoing
    edges and the drawn value [r] lies in [[0, total_weight)], [next] walks
    [es] in stored order with the running subtraction: it moves the current
    position to the [to] of the first edge whose weight exceeds what remains
    of [r], leaving nodes and edges as they were, and fails with
    [TransitionFailedError] (chain unchanged) when no edge is selected.
    A value is drawn only when [rng.gen_range(0.0..total_weight)] does not
    panic: [0 < total_weight] and [total_weight - 0.0] finite (a total that
    overflows to infinity panics with "range overflow" and draws nothing). *)
Theorem next_weighted_selection (c : MarkovChain F) (id : N) (es : list (Edge F)) (r : F) :
  current_node c = Some id ->
  get_node_edges c id = Ok es ->
  es <> [] ->
  f_ltb f_zero (total_weight es) = true ->
  f_is_finite (f_sub (total_weight es) f_zero) = true ->
  f_ltb r f_zero = false ->
  f_ltb r (total_weight es) = true ->
  (forall i e,
     nth_error es i = Some e ->
     (forall j e', (j < i)%nat -> nth_error es j = Some e' ->
                   f_ltb (remaining r es j) (weight e') = false) ->
     f_ltb (remaining r es i) (weight e) = true ->
     next c r = Done (Ok tt, mkChain (nodes c) (edges c) (Some (to e)))) /\
  ((forall i e, nth_error es i = Some e -> f_ltb (remaining r es i) (weight e) = false) ->
   next c r = Done (Err TransitionFailedError, c)).
Proof.
  intros Hcur Hes Hne Hpos Hfin _ _.
  assert (Hnext : next c r =
    match select_edge r es with
    | Some t => Done (Ok tt, mkChain (nodes c) (edges c) (Some t))
    | None => Done (Err TransitionFailedError, c)
    end).
  { unfold next. rewrite Hcur, Hes.
    destruct es as [|e0 rest]; [congruence|].
    unfold gen_range. rewrite Hpos, Hfin. reflexivity. }
  split.
  - intros i e Hnth Hbefore Hlt. rewrite Hnext.
    rewrite (select_edge_first es r i e Hnth Hlt Hbefore). reflexivity.
  - intros Hall. rewrite Hnext, (select_edge_none es r Hall). reflexivity.
Qed.

End NextFacts.

(** Witness for C2: node 1 with one edge [1 -> 2] of weight [0]. *)
Lemma next_panics_zero_weights_witness :
  next (mkChain [Node_new 1 None] [Edge_new 1 2 (0 # 1)] (Some 1%N)) (0 # 1) = Panic.
Proof.
  apply (next_panics_zero_weights _ 1).
  - reflexivity.
  - reflexivity.
  - reflexivity.
  - reflexivity.
  - discriminate.
  - repeat constructor.
Defined.

(** Witness for C4: the sample graph at node 3 with [r = 0.9]; the remaining
    values are [0.9] (not below [0.8]) and then [0.1] (below [0.4]). *)
Lemma next_weighted_selection_witness :
  next (snd (set_current_node sample_chain 3)) (9 # 10) =
    Done (Ok tt, mkChain (nodes sample_chain) (edges sample_chain) (Some 2%N)).
Proof.
  refine (proj1 (next_weighted_selection (snd (set_current_node sample_chain 3)) 3
            [Edge_new 3 1 (8 # 10); Edge_new 3 2 (4 # 10)] (9 # 10)
            eq_refl eq_refl _ eq_refl eq_refl eq_refl eq_refl) 1%nat (Edge_new 3 2 (4 # 10))
            eq_refl _ eq_refl).
  - discriminate.
  - intros j e' Hj Hn. destruct j as [|j]; [|lia].
    simpl in Hn. inversion Hn; subst. reflexivity.
Defined.

(** ** [add_node] with an id already present *)

(** Claim C3 as stated fails: a chain already holding node 1 with one action;
    adding [Node { id: 1, actions: [] }] and looking up id 1 returns the older
    node, not the one just added. *)
Lemma add_node_get_node_counterexample :
  ~ (forall (c : MarkovChain Q) (n : Node), get_node (add_node c n) (node_id n) = Some n).
Proof.
  intro Hall.
  specialize (Hall (mkChain [Node_new 1 (Some [Action_new 7 None])] [] None)
                   (Node_new 1 None)).
  vm_compute in Hall. discriminate.
Qed.

Section AddNode.
Context {F : Type} `{FloatOps F}.

(** Claim C3, amended: after [add_node n], [get_node n.id] returns the first
    node with that id: the node [c] already had with id [n.id] when there is
    one, and [n] itself when [c] has no node with that id. *)
Theorem add_node_get_node_first (c : MarkovChain F) (n : Node) :
  get_node (add_node c n) (node_id n) =
    match get_node c (node_id n) with
    | Some m => Some m
    | None => Some n
    end.
Proof.
  unfold get_node, add_node; simpl.
  induction (nodes c) as [|m ms IH]; simpl.
  - rewrite N.eqb_refl. reflexivity.
  - destruct (N.eqb (node_id m) (node_id n)); [reflexivity|exact IH].
Qed.

End AddNode.

(** ** Where a successful [next] leads *)

Lemma next_ok_destination {F} `{FloatOps F} (c : MarkovChain F) (draw : F) (c' : MarkovChain F) :
  next c draw = Done (Ok tt, c') ->
  exists e, In e (edges c) /\ current_node c = Some (from e) /\
            current_node c' = Some (to e) /\ nodes c' = nodes c /\ edges c' = edges c.
Proof.
  unfold next. destruct (current_node c) as [id|] eqn:Hcur; [|discriminate].
  destruct (get_node_edges c id) as [es|err] eqn:Hes; [|discriminate].
  apply get_node_edges_ok in Hes as [_ Hes].
  destruct es as [|e0 rest]; [discriminate|].
  destruct (gen_range f_zero (total_weight (e0 :: rest)) draw) as [|rw]; [discriminate|].
  destruct (select_edge rw (e0 :: rest)) as [t|] eqn:Hsel; [|discriminate].
  intro Hd. inversion Hd; subst c'; clear Hd.
  apply select_edge_some in Hsel as [e [Hin Hto]].
  rewrite Hes in Hin. apply filter_In in Hin as [Hin Hfrom].
  apply N.eqb_eq in Hfrom.
  exists e. repeat split; simpl; auto; congruence.
Qed.

(** Claim C10: whenever [next] succeeds, the new current position is the [to]
    of a stored edge whose [from] is the previous current position; the
    destination is never checked against the nodes, so a successful [next]
    can leave the current position on an id no node has (here: node 1 only,
    edge [1 -> 2], draw [0.5]). *)
Theorem next_ok_unchecked_destination :
  (forall (F : Type) (ops : FloatOps F) (c : MarkovChain F) (draw : F) (c' : MarkovChain F),
     next c draw = Done (Ok tt, c') ->
     exists e, In e (edges c) /\ current_node c = Some (from e) /\
               current_node c' = Some (to e)) /\
  (exists (c : MarkovChain Q) (draw : Q) (c' : MarkovChain Q) (b : N),
     next c draw = Done (Ok tt, c') /\ current_node c' = Some b /\
     node_exists c' b = false).
Proof.
  split.
  - intros F ops c draw c' Hn.
    destruct (next_ok_destination c draw c' Hn) as [e [Hin [Hf [Ht _]]]].
    exists e; auto.
  - exists (mkChain [Node_new 1 None] [Edge_new 1 2 (1 # 1)] (Some 1%N)), (1 # 2),
      (mkChain [Node_new 1 None] [Edge_new 1 2 (1 # 1)] (Some 2%N)), 2%N.
    split; [reflexivity|split; reflexivity].
Qed.


Section MoreFacts.
Context {F : Type} `{FloatOps F}.

Lemma find_some_prop {A} (p : A -> bool) (l : list A) (x : A) :
  find p l = Some x -> In x l /\ p x = true.
Proof. intro Hf. split; [eapply find_some; eauto | eapply find_some; eauto]. Qed.

Lemma find_is_some_existsb {A} (p : A -> bool) (l : list A) :
  existsb p l = true <-> exists x, find p l = Some x.
Proof.
  induction l as [|y l IH]; simpl.
  - split; [discriminate|intros [x Hx]; discriminate].
  - destruct (p y); simpl; [split; eauto|exact IH].
Qed.

(** After [add_edge e], [get_edge e.from e.to] finds the first stored edge
    between those ends: an older one if there was one, else [e]. *)
Theorem add_edge_get_edge_first (c : MarkovChain F) (e : Edge F) :
  get_edge (add_edge c e) (from e) (to e) =
    match get_edge c (from e) (to e) with
    | Some e' => Some e'
    | None => Some e
    end.
Proof.
  unfold get_edge, add_edge; simpl.
  induction (edges c) as [|x xs IH]; simpl.
  - rewrite !N.eqb_refl. reflexivity.
  - destruct (N.eqb (from x) (from e) && N.eqb (to x) (to e)); [reflexivity|exact IH].
Qed.

(** [remove_edge from to] drops every edge between those ends and keeps all
    others in order; afterwards [get_edge] and [edge_exists] find nothing for
    that pair; nodes and the current position are untouched. *)
Theorem remove_edge_spec (c : MarkovChain F) (fr t : N) :
  get_edge (remove_edge c fr t) fr t = None /\
  edge_exists (remove_edge c fr t) fr t = false /\
  (forall e, In e (edges (remove_edge c fr t)) <->
             In e (edges c) /\ ~ (from e = fr /\ to e = t)) /\
  nodes (remove_edge c fr t) = nodes c /\
  current_node (remove_edge c fr t) = current_node c.
Proof.
  assert (Hex : edge_exists (remove_edge c fr t) fr t = false).
  { apply Bool.not_true_iff_false. intro Hx.
    unfold edge_exists, remove_edge in Hx; simpl in Hx.
    apply existsb_exists in Hx as [e [Hin Hp]].
    apply filter_In in Hin as [_ Hn]. rewrite Hp in Hn. discriminate. }
  split; [|split; [exact Hex|split; [|split; reflexivity]]].
  - apply find_none_existsb. exact Hex.
  - intro e. unfold remove_edge; simpl. rewrite filter_In, Bool.negb_true_iff.
    rewrite <- Bool.not_true_iff_false, Bool.andb_true_iff, !N.eqb_eq. tauto.
Qed.

(** [get_node] and [node_exists] agree, and what [get_node id] returns is a
    stored node with that id; likewise [get_edge] and [edge_exists]. *)
Theorem lookups_agree_with_exists (c : MarkovChain F) (id fr t : N) :
  (node_exists c id = true <-> exists n, get_node c id = Some n) /\
  (forall n, get_node c id = Some n -> In n (nodes c) /\ node_id n = id) /\
  (edge_exists c fr t = true <-> exists e, get_edge c fr t = Some e) /\
  (forall e, get_edge c fr t = Some e -> In e (edges c) /\ from e = fr /\ to e = t).
Proof.
  split; [apply find_is_some_existsb|split; [|split; [apply find_is_some_existsb|]]].
  - intros n Hn. apply find_some_prop in Hn as [Hin Hp].
    apply N.eqb_eq in Hp. auto.
  - intros e He. apply find_some_prop in He as [Hin Hp].
    apply Bool.andb_true_iff in Hp as [H1 H2]. apply N.eqb_eq in H1, H2. auto.
Qed.

(** [add_node_actions id acts] appends [acts] to the action list that
    [get_node_actions id] returns (nothing happens when no node has that id). *)
Theorem add_node_actions_get (c : MarkovChain F) (id : N) (acts : list Action) :
  get_node_actions (add_node_actions c id acts) id =
    option_map (fun l => l ++ acts) (get_node_actions c id).
Proof.
  unfold get_node_actions, get_node, add_node_actions; simpl.
  induction (nodes c) as [|n ns IH]; simpl; [reflexivity|].
  destruct (N.eqb (node_id n) id) eqn:Heq; simpl.
  - rewrite Heq. reflexivity.
  - rewrite Heq. exact IH.
Qed.

(** [add_node_actions] keeps the sequence of node ids, the edges and the
    current position, changes no lookup of another id, and leaves the chain
    as it was when no node has the id. *)
Theorem add_node_actions_frame (c : MarkovChain F) (id : N) (acts : list Action) :
  map node_id (nodes (add_node_actions c id acts)) = map node_id (nodes c) /\
  edges (add_node_actions c id acts) = edges c /\
  current_node (add_node_actions c id acts) = current_node c /\
  (forall id', id' <> id -> get_node (add_node_actions c id acts) id' = get_node c id') /\
  (node_exists c id = false -> add_node_actions c id acts = c).
Proof.
  destruct c as [ns es cur]. unfold add_node_actions, get_node, node_exists; simpl.
  split; [|split; [reflexivity|split; [reflexivity|split]]].
  - induction ns as [|n ns IH]; simpl; [reflexivity|].
    destruct (N.eqb (node_id n) id); simpl; [reflexivity|rewrite IH; reflexivity].
  - intros id' Hne. induction ns as [|n ns IH]; simpl; [reflexivity|].
    destruct (N.eqb (node_id n) id) eqn:Heq; simpl.
    + apply N.eqb_eq in Heq. rewrite Heq.
      destruct (N.eqb id id') eqn:Heq'; [apply N.eqb_eq in Heq'; congruence|reflexivity].
    + rewrite IH. reflexivity.
  - intro Hno. f_equal.
    induction ns as [|n ns IH]; simpl in *; [reflexivity|].
    destruct (N.eqb (node_id n) id); simpl in Hno; [discriminate|].
    rewrite IH; auto.
Qed.

End MoreFacts.

Section MoreFacts2.
Context {F : Type} `{FloatOps F}.

Lemma set_current_node_cases (c : MarkovChain F) (id : N) :
  set_current_node c id =
    if node_exists c id then (Ok tt, mkChain (nodes c) (edges c) (Some id))
    else (Err NodeDoesNotExistError, c).
Proof.
  unfold set_current_node, node_exists.
  destruct (find (fun node => N.eqb (node_id node) id) (nodes c)) eqn:Hf.
  - assert (Hex : existsb (fun node => N.eqb (node_id node) id) (nodes c) = true)
      by (apply find_is_some_existsb; eauto).
    rewrite Hex. reflexivity.
  - apply find_none_existsb in Hf. rewrite Hf. reflexivity.
Qed.

(** [get_node_action nid aid] looks only in the first node with id [nid]: what
    it returns is an action with id [aid] of that node, and it finds one
    exactly when that node's action list holds one. *)
Theorem get_node_action_spec (c : MarkovChain F) (nid aid : N) :
  (forall a, get_node_action c nid aid = Some a ->
     action_id a = aid /\
     exists acts, get_node_actions c nid = Some acts /\ In a acts) /\
  (get_node_action c nid aid = None <->
     match get_node_actions c nid with
     | Some acts => forall a, In a acts -> action_id a <> aid
     | None => True
     end).
Proof.
  unfold get_node_action, get_node_actions.
  destruct (get_node c nid) as [n|]; simpl.
  - split.
    + intros a Ha. apply find_some_prop in Ha as [Hin Hp].
      apply N.eqb_eq in Hp. split; [exact Hp|]. exists (actions n); auto.
    + rewrite find_none_existsb, <- Bool.not_true_iff_false, existsb_exists.
      split.
      * intros Hno a Hin Heq. apply Hno. exists a. rewrite Heq, N.eqb_refl. auto.
      * intros Hall [a [Hin Hp]]. apply N.eqb_eq in Hp. exact (Hall a Hin Hp).
  - split; [discriminate|tauto].
Qed.

(** [get_edge_from id] and [get_edge_to id] return the queried id itself (not
    the other end of an edge), and they return it exactly when some stored
    edge starts, respectively ends, at [id]. *)
Theorem get_edge_from_to_return_query (c : MarkovChain F) (id : N) :
  get_edge_from c id =
    (if existsb (fun e => N.eqb (from e) id) (edges c) then Some id else None) /\
  get_edge_to c id =
    (if existsb (fun e => N.eqb (to e) id) (edges c) then Some id else None).
Proof.
  unfold get_edge_from, get_edge_to.
  split; induction (edges c) as [|e es IH]; simpl; try reflexivity;
    [destruct (N.eqb (from e) id) eqn:Heq | destruct (N.eqb (to e) id) eqn:Heq];
    simpl; try exact IH; apply N.eqb_eq in Heq; rewrite Heq; reflexivity.
Qed.

(** [next] only ever changes the current position: nodes and edges are kept,
    an error returns the chain exactly as it was, and it never clears a set
    current position. *)
Theorem next_frame (c : MarkovChain F) (draw : F)
    (res : result unit MarkovChainError) (c' : MarkovChain F) :
  next c draw = Done (res, c') ->
  nodes c' = nodes c /\ edges c' = edges c /\
  (forall err, res = Err err -> c' = c) /\
  (current_node c' = None -> current_node c = None).
Proof.
  unfold next. destruct (current_node c) as [id|] eqn:Hcur.
  2:{ intro Hd; inversion Hd; subst; auto. }
  destruct (get_node_edges c id) as [es|err].
  2:{ intro Hd; inversion Hd; subst; repeat split; auto; congruence. }
  destruct es as [|e0 rest].
  { intro Hd; inversion Hd; subst; repeat split; auto; congruence. }
  destruct (gen_range f_zero (total_weight (e0 :: rest)) draw) as [|rw]; [discriminate|].
  destruct (select_edge rw (e0 :: rest)) as [t|].
  - intro Hd; inversion Hd; subst; simpl. repeat split; auto.
    + intros err Herr; discriminate.
    + discriminate.
  - intro Hd; inversion Hd; subst; repeat split; auto; congruence.
Qed.

(** Adding an edge extends what [get_node_edges] returns for its source by
    that edge at the end, and changes no other id's result (nor whether the
    lookup fails). *)
Theorem get_node_edges_add_edge (c : MarkovChain F) (e : Edge F) (id : N) :
  get_node_edges (add_edge c e) id =
    match get_node_edges c id with
    | Ok l => Ok (l ++ (if N.eqb (from e) id then [e] else []))
    | Err err => Err err
    end.
Proof.
  unfold get_node_edges, add_edge, node_exists; simpl.
  destruct (existsb (fun node => N.eqb (node_id node) id) (nodes c)); simpl;
    [|reflexivity].
  rewrite filter_app. simpl. destruct (N.eqb (from e) id); reflexivity.
Qed.

(** After [remove_node id], both [get_node_edges id] and [set_current_node id]
    fail with [NodeDoesNotExistError], although the edges from [id] are still
    stored. *)
Theorem remove_node_then_lookups_fail (c : MarkovChain F) (id : N) :
  get_node_edges (remove_node c id) id = Err NodeDoesNotExistError /\
  set_current_node (remove_node c id) id = (Err NodeDoesNotExistError, remove_node c id).
Proof.
  assert (Hne : node_exists (remove_node c id) id = false).
  { apply Bool.not_true_iff_false. intro Hx.
    apply existsb_node_exists_iff in Hx as [n [Hin Heq]].
    unfold remove_node in Hin; simpl in Hin. apply filter_In in Hin as [_ Hn].
    rewrite Heq, N.eqb_refl in Hn. discriminate. }
  split.
  - unfold get_node_edges. rewrite Hne. reflexivity.
  - rewrite set_current_node_cases, Hne. reflexivity.
Qed.

(** After [add_node n], [set_current_node n.id] succeeds, whatever the chain
    held before. *)
Theorem add_node_then_set_current (c : MarkovChain F) (n : Node) :
  set_current_node (add_node c n) (node_id n) =
    (Ok tt, mkChain (nodes c ++ [n]) (edges c) (Some (node_id n))).
Proof.
  rewrite set_current_node_cases.
  assert (Hex : node_exists (add_node c n) (node_id n) = true).
  { apply existsb_node_exists_iff. exists n. split; [|reflexivity].
    unfold add_node; simpl. apply in_or_app. right. left. reflexivity. }
  rewrite Hex. reflexivity.
Qed.

End MoreFacts2.


(** After [add_nodes ns], [get_node id] returns the chain's earlier node with
    that id if there was one, and otherwise the first node of [ns] with that
    id; edges and the current position are kept. *)
Theorem add_nodes_get_node {F} `{FloatOps F} (c : MarkovChain F) (ns : list Node) (id : N) :
  get_node (add_nodes c ns) id =
    match get_node c id with
    | Some m => Some m
    | None => find (fun node => N.eqb (node_id node) id) ns
    end /\
  edges (add_nodes c ns) = edges c /\
  current_node (add_nodes c ns) = current_node c.
Proof.
  split; [|split; reflexivity].
  unfold get_node, add_nodes; simpl.
  induction (nodes c) as [|m ms IH]; simpl; [reflexivity|].
  destruct (N.eqb (node_id m) id); [reflexivity|exact IH].
Qed.

(** Witness for [next_frame]: the successful step of the sample graph from
    node 3 with [r = 0.9]. *)
Lemma next_frame_witness :
  nodes (mkChain (F := Q) (nodes sample_chain) (edges sample_chain) (Some 2%N)) =
    nodes (snd (set_current_node sample_chain 3)) /\
  edges (mkChain (F := Q) (nodes sample_chain) (edges sample_chain) (Some 2%N)) =
    edges (snd (set_current_node sample_chain 3)) /\
  (forall err, (Ok tt : result unit MarkovChainError) = Err err ->
     mkChain (nodes sample_chain) (edges sample_chain) (Some 2%N) =
     snd (set_current_node sample_chain 3)) /\
  (current_node (mkChain (F := Q) (nodes sample_chain) (edges sample_chain) (Some 2%N)) = None ->
   current_node (snd (set_current_node sample_chain 3)) = None).
Proof.
  apply (next_frame (snd (set_current_node sample_chain 3)) (9 # 10) (Ok tt)
           (mkChain (nodes sample_chain) (edges sample_chain) (Some 2%N))).
  reflexivity.
Defined.
